(** * Iteration exporting in PorePy models: the vtu suffix of an iteration file

    Source: tutorials/exporting_models.ipynb, class [IterationExporting],
    method [save_data_iteration].

    The method labels every exported nonlinear iteration with the integer
    [num_iteration + r * time_index], where [r] is derived from the entry
    ["max_iterations"] of the model parameters.  This file embeds the method,
    the dictionary lookup it starts with, the two library calls it makes
    ([np.log10] and the builtin [round]) and the data collection whose result
    it hands to the exporter, and proves what the specification says about
    the radix [r] and about the labels.  The second part covers the other
    methods of the notebook's mixins: [initialize_data_saving],
    [data_to_export_iteration], [after_nonlinear_iteration] and
    [DisplacementJumpExporting.data_to_export]. *)

From stdpp Require Import base numbers option list sorting strings gmap.

Local Open Scope Z_scope.

(** ** Python results: a value or a raised exception *)

(** The builtin exceptions [save_data_iteration] can end with: the two that
    [round] raises on a float that is not finite, the one [np.log10] raises
    on an integer it cannot convert, and the one of a failed dictionary
    lookup. *)
Inductive exn : Set :=
| OverflowError                (* cannot convert float infinity to integer *)
| ValueError                   (* cannot convert float NaN to integer *)
| TypeError                    (* ufunc loop does not support an int this large *)
| Key_Error (key : string).    (* KeyError(key) *)

Definition exn_name (e : exn) : string :=
  match e with
  | OverflowError => "OverflowError"
  | ValueError => "ValueError"
  | TypeError => "TypeError"
  | Key_Error _ => "KeyError"
  end.

Inductive result (A : Type) : Type :=
| Ok (a : A)
| Raise (e : exn).

Arguments Ok {A} a.
Arguments Raise {A} e.

#[global] Instance result_ret : MRet result := @Ok.

#[global] Instance result_bind : MBind result :=
  λ A B f m, match m with
             | Ok a => f a
             | Raise e => Raise e
             end.

Definition succeeds {A} (m : result A) : Prop := ∃ a, m = Ok a.
Definition fails {A} (m : result A) : Prop := ∃ e, m = Raise e.

(** ** The library calls [np.log10] and [round] *)

Module Numpy.

(** The floats [np.log10] yields on an integer argument.  A positive
    argument gives the finite value log10(n), which is kept symbolically;
    zero gives [-inf] and a negative argument gives [nan] (numpy warns in
    both cases and raises nothing). *)
Inductive float64 : Set :=
| log10_of (n : positive)
| neg_inf
| nan.

(** [np.log10(n)] on a Python int.  numpy first converts the int to a
    machine integer, [int64] or, from 2^63 on, [uint64]; an int outside
    [-2^63, 2^64) becomes an object array, for which the ufunc has no loop,
    and the call raises [TypeError].

    Inside the range the logarithm is that of the integer itself: the
    rounding of the conversion to float64 (inexact above 2^53) and of the
    floating-point logarithm is not represented.  It can move the rounded
    logarithm [p] to the other neighbour of log10(n) (at 3162277660168379
    the float gives 16 where the exact value gives 15) and never changes the
    radix, by [next_power_tolerant] and [next_power_floor_ceiling] below. *)
Definition log10 (n : Z) : result float64 :=
  if bool_decide (- 2 ^ 63 ≤ n < 2 ^ 64) then
    Ok match n with
       | Zpos q => log10_of q
       | Z0 => neg_inf
       | Zneg _ => nan
       end
  else Raise TypeError.

(** floor(log10 n) for [n >= 1], by repeated division by ten;
    [fuel] bounds the number of divisions. *)
Fixpoint floor_log10_fuel (fuel : nat) (n : Z) : Z :=
  match fuel with
  | O => 0
  | S fuel' => if n <? 10 then 0 else 1 + floor_log10_fuel fuel' (n / 10)
  end.

Definition floor_log10 (n : Z) : Z :=
  floor_log10_fuel (Z.to_nat (Z.log2 n)) n.

(** The integer nearest to log10(n): with [f = floor_log10 n], the value
    lies above [f + 1/2] exactly when [n^2 > 10^(2f+1)].  On a tie
    Python's [round] picks the even neighbour. *)
Definition nearest_log10 (n : Z) : Z :=
  let f := floor_log10 n in
  match n * n ?= 10 ^ (2 * f + 1) with
  | Lt => f
  | Gt => f + 1
  | Eq => if Z.even f then f else f + 1
  end.

(** A numpy array of float64 values, each entry by its 64-bit pattern.  The
    exporting methods hand arrays on and never compute with them. *)
Definition ndarray : Type := list Z.

End Numpy.

(** The builtin [round] with one argument, on a numpy float: the nearest
    integer as a Python int; [-inf] and [nan] cannot be converted. *)
Definition round (x : Numpy.float64) : result Z :=
  match x with
  | Numpy.log10_of q => Ok (Numpy.nearest_log10 (Zpos q))
  | Numpy.neg_inf => Raise OverflowError
  | Numpy.nan => Raise ValueError
  end.

(** ** Lookups that raise [KeyError] *)

(** [d[key]] on a dictionary: the value, or [KeyError] with the key. *)
Inductive lookup_result (A : Type) : Type :=
| Found (a : A)
| KeyError (key : string).

Arguments Found {A} a.
Arguments KeyError {A} key.

#[global] Instance lookup_result_ret : MRet lookup_result := @Found.

#[global] Instance lookup_result_bind : MBind lookup_result :=
  λ A B f m, match m with
             | Found a => f a
             | KeyError key => KeyError key
             end.

Definition getitem {A} (d : gmap string A) (key : string) : lookup_result A :=
  match d !! key with
  | Some v => Found v
  | None => KeyError key
  end.

(** A [KeyError] that nothing catches ends the calling method. *)
Definition propagate {A} (m : lookup_result A) : result A :=
  match m with
  | Found a => Ok a
  | KeyError key => Raise (Key_Error key)
  end.

(** ** Grids, variables and export data *)

(** A subdomain of [self.mdg]: what the exporting methods look at is its
    dimension. *)
Record Grid : Type := mkGrid {
  grid_id : nat;
  dim : Z
}.

(** A variable of [self.equation_system.variables]. *)
Record Var : Type := mkVar {
  domain : Grid;
  name : string;
  tags : gmap string string
}.

(** The variable has an ["si_units"] tag. *)
Definition tagged (var : Var) : Prop :=
  is_Some (tags var !! "si_units"%string).

Section ExportData.

(** Arrays of values are opaque to the exporting methods. *)
Context {Values : Type}.

(** One element of the data handed to [write_vtu]: (grid, name, values). *)
Definition entry : Type := Grid * string * Values.

(** [self.equation_system.get_variable_values(variables=[var], iterate_index=0)] *)
Variable get_variable_values : Var → Values.

(** [self.fluid.convert_units(scaled_values, units, to_si=True)] *)
Variable convert_units : Values → string → Values.

(** The loop of [data_to_export_iteration], with the list [data] it appends
    to. *)
Fixpoint data_to_export_iteration_loop
    (variables : list Var) (data : list entry) : lookup_result (list entry) :=
  match variables with
  | [] => Found data
  | var :: variables' =>
      let scaled_values := get_variable_values var in
      units ← getitem (tags var) "si_units";
      let values := convert_units scaled_values units in
      data_to_export_iteration_loop variables' (data ++ [(domain var, name var, values)])
  end.

(** [IterationExporting.data_to_export_iteration]: [data = []], the loop,
    [return data]. *)
Definition data_to_export_iteration (variables : list Var) : lookup_result (list entry) :=
  data_to_export_iteration_loop variables [].

(** The entry the loop builds for a variable whose ["si_units"] tag is
    [units]. *)
Definition entry_of (var : Var) (units : string) : entry :=
  (domain var, name var, convert_units (get_variable_values var) units).

(** [self._evaluate_and_scale(sd, "displacement_jump", "m")] *)
Variable evaluate_and_scale : Grid → string → string → Values.

(** [self.mdg.subdomains(dim=d)]: the subdomains of dimension [d], in the
    order of the mixed-dimensional grid. *)
Definition subdomains (mdg : list Grid) (d : Z) : list Grid :=
  filter (λ sd, dim sd = d) mdg.

(** [DisplacementJumpExporting.data_to_export]: [super_data] is what
    [super().data_to_export()] returned; the loop appends one entry for each
    subdomain of dimension [nd - 1]. *)
Definition data_to_export
    (super_data : list entry) (mdg : list Grid) (nd : Z) : list entry :=
  foldl (λ data sd,
           let vals := evaluate_and_scale sd "displacement_jump" "m" in
           data ++ [(sd, "displacement_jump"%string, vals)])
        super_data (subdomains mdg (nd - 1)).

(** The entry [data_to_export] appends for a subdomain. *)
Definition jump_entry (sd : Grid) : entry :=
  (sd, "displacement_jump"%string,
   evaluate_and_scale sd "displacement_jump" "m").

End ExportData.

(** A matrix of dimension 2 with one fracture, and three variables: two with
    their unit tags and a displacement without one. *)
Definition matrix_grid : Grid := {| grid_id := 0; dim := 2 |}.
Definition fracture_grid : Grid := {| grid_id := 1; dim := 1 |}.

Definition pressure : Var :=
  {| domain := matrix_grid; name := "pressure";
     tags := {[ "si_units"%string := "Pa"%string ]} |}.

Definition interface_flux : Var :=
  {| domain := fracture_grid; name := "interface_darcy_flux";
     tags := {[ "si_units"%string := "m^3 * s^-1"%string ]} |}.

Definition displacement : Var :=
  {| domain := matrix_grid; name := "u"; tags := ∅ |}.

(** ** The model object *)

(** The part of [self] that [save_data_iteration] touches.  [params] holds
    the integer-valued entries of the parameter dictionary; the exporter is
    represented by the [time_step] keys handed to [write_vtu] so far, in call
    order.  The equation system is what [data_to_export_iteration] reads: its
    variables and the values it returns for each of them. *)
Record Model : Type := mkModel {
  params : gmap string Z;
  num_iteration : Z;           (* self.nonlinear_solver_statistics.num_iteration *)
  time_index : Z;              (* self.time_manager.time_index *)
  iteration_exporter : list Z; (* time steps written by self.iteration_exporter *)
  variables : list Var;        (* self.equation_system.variables *)
  equation_system : Var → Numpy.ndarray;
    (* self.equation_system.get_variable_values(variables=[var], iterate_index=0) *)
  fluid : Numpy.ndarray → string → Numpy.ndarray
    (* self.fluid.convert_units(scaled_values, units, to_si=True) *)
}.

(** [self.iteration_exporter.write_vtu(data, time_dependent=True, time_step=k)]:
    the exporter writes [data] to a vtu file with suffix [k]; of the call the
    model keeps the suffix. *)
Definition write_vtu (data : list (@entry Numpy.ndarray)) (k : Z) (self : Model) : Model :=
  {| params := params self;
     num_iteration := num_iteration self;
     time_index := time_index self;
     iteration_exporter := iteration_exporter self ++ [k];
     variables := variables self;
     equation_system := equation_system self;
     fluid := fluid self |}.

(** ** [save_data_iteration] *)

(** [n = self.params.get("max_iterations", 10)] *)
Definition max_iterations (self : Model) : Z :=
  default 10 (params self !! "max_iterations"%string).

(** [r = 10**p; if r <= n: r = 10 ** (p + 1)].  The exponent is never
    negative here ([nearest_log10_half]), so [10**p] is an integer power. *)
Definition next_power (n p : Z) : Z :=
  let r := 10 ^ p in
  if bool_decide (r ≤ n) then 10 ^ (p + 1) else r.

(** The radix: [p = round(np.log10(n))], then the two lines above.  The
    method computes it inline; the specification calls this part
    [computeRadix] and the label expression [encode]. *)
Definition computeRadix (n : Z) : result Z :=
  x ← Numpy.log10 n;
  p ← round x;
  mret (next_power n p).

(** The [time_step] argument:
    [num_iteration + r * time_index]. *)
Definition encode (timeStepIndex iterationIndex radix : Z) : Z :=
  iterationIndex + radix * timeStepIndex.

(** [self.data_to_export_iteration()], the method on the model object. *)
Definition export_data (self : Model) : lookup_result (list entry) :=
  data_to_export_iteration (equation_system self) (fluid self) (variables self).

(** The method itself: the radix first, then the arguments of [write_vtu]
    in the order they are written, the data before the time step; an
    exception in the radix or in the data collection ends the method before
    anything is written. *)
Definition save_data_iteration (self : Model) : result Model :=
  let n := max_iterations self in
  r ← computeRadix n;
  data ← propagate (export_data self);
  mret (write_vtu data (encode (time_index self) (num_iteration self) r) self).

(** ** The calls made during a run *)

(** Between two exports the simulation driver (the library's
    [run_time_dependent_model] and its nonlinear solver) moves the two
    counters; [save_data_iteration] only reads them. *)
Definition set_counters (t i : Z) (self : Model) : Model :=
  {| params := params self;
     num_iteration := i;
     time_index := t;
     iteration_exporter := iteration_exporter self;
     variables := variables self;
     equation_system := equation_system self;
     fluid := fluid self |}.

(** A run, seen from the exporter: the list of (time index, iteration index)
    pairs at which [after_nonlinear_iteration] reaches
    [self.save_data_iteration()], in program order. *)
Fixpoint run_exports (calls : list (Z * Z)) (self : Model) : result Model :=
  match calls with
  | [] => Ok self
  | (t, i) :: calls' =>
      self' ← save_data_iteration (set_counters t i self);
      run_exports calls' self'
  end.

(** How the caller moves the counters from one export to the next: one more
    iteration of the same time step, or the first export of the next time
    step with the iteration index back at zero. *)
Inductive caller_step : Z * Z → Z * Z → Prop :=
| next_iteration t i : caller_step (t, i) (t, i + 1)
| next_time_step t i : caller_step (t, i) (t + 1, 0).

(** Both indices are non-negative and the iteration index stays below the
    radix. *)
Definition in_range (r : Z) (c : Z * Z) : Prop :=
  0 ≤ c.1 ∧ 0 ≤ c.2 < r.

(** The labels a call sequence produces under radix [r]. *)
Definition labels (r : Z) (calls : list (Z * Z)) : list Z :=
  map (λ c, encode c.1 c.2 r) calls.

(** The scenario of the specification: ["max_iterations"] is 10, three
    iterations in time step 0 and two in time step 1. *)
Definition scenario_model : Model :=
  {| params := {[ "max_iterations"%string := 10 ]};
     num_iteration := 0; time_index := 0; iteration_exporter := [];
     variables := [pressure; interface_flux];
     equation_system := λ _, [0]; fluid := λ values _, values |}.

Definition scenario_calls : list (Z * Z) :=
  [(0, 0); (0, 1); (0, 2); (1, 0); (1, 1)].

(** Two models that agree on the bound and on both counters and differ in
    everything else. *)
Definition model_a : Model :=
  {| params := {[ "max_iterations"%string := 25 ]};
     num_iteration := 3; time_index := 2; iteration_exporter := [];
     variables := [pressure; interface_flux];
     equation_system := λ _, [0]; fluid := λ values _, values |}.

Definition model_b : Model :=
  {| params := {[ "max_iterations"%string := 25; "end_time"%string := 2 ]};
     num_iteration := 3; time_index := 2; iteration_exporter := [100; 101];
     variables := [pressure];
     equation_system := λ _, [1]; fluid := λ values _, values |}.

(** A model whose parameters have no ["max_iterations"] entry, as the
    notebook's [model_params]. *)
Definition model_default : Model :=
  {| params := {[ "end_time"%string := 2 ]};
     num_iteration := 4; time_index := 7; iteration_exporter := [];
     variables := [pressure];
     equation_system := λ _, [0]; fluid := λ values _, values |}.

(** A model whose stored bound is zero. *)
Definition model_zero_bound : Model :=
  {| params := {[ "max_iterations"%string := 0 ]};
     num_iteration := 1; time_index := 1; iteration_exporter := [];
     variables := [pressure];
     equation_system := λ _, [0]; fluid := λ values _, values |}.

(** The scenario with a variable that has no ["si_units"] tag. *)
Definition model_untagged : Model :=
  {| params := {[ "max_iterations"%string := 10 ]};
     num_iteration := 0; time_index := 0; iteration_exporter := [];
     variables := [pressure; displacement];
     equation_system := λ _, [0]; fluid := λ values _, values |}.

(** ** What the specification asks of the radix *)

(** [r] is the smallest power of ten strictly greater than [n]. *)
Definition smallest_power_of_ten_above (n r : Z) : Prop :=
  (∃ k, 0 ≤ k ∧ r = 10 ^ k) ∧
  n < r ∧
  ∀ j, 0 ≤ j → n < 10 ^ j → r ≤ 10 ^ j.

(** * The other methods of the notebook *)

(** ** The iteration exporter *)

(** The arguments [IterationExporting.initialize_data_saving] gives to
    [pp.Exporter]. *)
Record Exporter : Type := mkExporter {
  file_name : string;
  folder_name : string;
  export_constants_separately : bool
}.

(** [IterationExporting.initialize_data_saving], after the call of the
    parent method: [sparams] holds the string-valued entries of
    [self.params].  The keyword arguments are evaluated in the order they are
    written, so a missing ["file_name"] is reported before a missing
    ["folder_name"].  The new exporter has written nothing. *)
Definition initialize_data_saving
    (sparams : gmap string string) (self : Model) : lookup_result (Exporter * Model) :=
  f ← getitem sparams "file_name";
  d ← getitem sparams "folder_name";
  mret ({| file_name := f +:+ "_iterations";
           folder_name := d;
           export_constants_separately := false |},
        {| params := params self;
           num_iteration := num_iteration self;
           time_index := time_index self;
           iteration_exporter := [];
           variables := variables self;
           equation_system := equation_system self;
           fluid := fluid self |}).

(** The string entries of [model_params] when the notebook builds
    [model_3]. *)
Definition notebook_params : gmap string string :=
  {[ "folder_name"%string := "model_exporting"%string;
     "file_name"%string := "iterations"%string ]}.

(** The same with the file name of [model_2]. *)
Definition notebook_params_jumps : gmap string string :=
  {[ "folder_name"%string := "model_exporting"%string;
     "file_name"%string := "jumps"%string ]}.

(** ** [after_nonlinear_iteration] *)

(** The model together with the pvd file of the iteration exporter: [None]
    before the first [write_pvd], then the time steps the file lists. *)
Record Simulation : Type := mkSimulation {
  model : Model;
  pvd : option (list Z)
}.

(** A call either completes or is aborted by an exception; what had been
    changed before the exception stays changed. *)
Inductive outcome : Type :=
| Completed (sim : Simulation)
| Aborted (e : exn) (sim : Simulation).

Section AfterNonlinearIteration.

Context {Vector : Type}.

(** [super().after_nonlinear_iteration(solution_vector)], the method of the
    library's solution strategy. *)
Variable super_after_nonlinear_iteration : Vector → Model → Model.

(** [IterationExporting.after_nonlinear_iteration]: the parent method, then
    [self.save_data_iteration()], then [self.iteration_exporter.write_pvd()],
    which (over)writes the pvd file with every time step exported so far. *)
Definition after_nonlinear_iteration
    (solution_vector : Vector) (sim : Simulation) : outcome :=
  let self := super_after_nonlinear_iteration solution_vector (model sim) in
  match save_data_iteration self with
  | Ok self' => Completed {| model := self'; pvd := Some (iteration_exporter self') |}
  | Raise e => Aborted e {| model := self; pvd := pvd sim |}
  end.

(** The nonlinear solver calls the method once per iteration, with the
    solution vector of that iteration, and stops at an exception. *)
Fixpoint nonlinear_iterations
    (solution_vectors : list Vector) (sim : Simulation) : outcome :=
  match solution_vectors with
  | [] => Completed sim
  | v :: solution_vectors' =>
      match after_nonlinear_iteration v sim with
      | Completed sim' => nonlinear_iterations solution_vectors' sim'
      | Aborted e sim' => Aborted e sim'
      end
  end.

End AfterNonlinearIteration.

(** A parent method that counts the iteration and touches nothing else,
    and three simulations about to start their nonlinear iterations: the
    scenario with bound 10, one with the stored bound 0 and one with an
    untagged variable. *)
Definition count_iteration (solution_vector : unit) (self : Model) : Model :=
  set_counters (time_index self) (num_iteration self + 1) self.

Definition scenario_simulation : Simulation :=
  {| model := scenario_model; pvd := None |}.

Definition zero_bound_simulation : Simulation :=
  {| model := model_zero_bound; pvd := None |}.

Definition untagged_simulation : Simulation :=
  {| model := model_untagged; pvd := None |}.

(** The pvd file lists exactly the time steps written so far; before the
    first export there is neither a vtu file nor a pvd file. *)
Definition pvd_up_to_date (sim : Simulation) : Prop :=
  pvd sim = Some (iteration_exporter (model sim)) ∨
  (pvd sim = None ∧ iteration_exporter (model sim) = []).

(** The state an outcome leaves behind. *)
Definition final (o : outcome) : Simulation :=
  match o with
  | Completed sim => sim
  | Aborted _ sim => sim
  end.

(** * Properties *)

(** ** Powers of ten *)

Lemma pow10_pos (k : Z) : 0 ≤ k → 0 < 10 ^ k.
Proof. intros. apply Z.pow_pos_nonneg; lia. Qed.

Lemma pow10_succ (k : Z) : 0 ≤ k → 10 ^ (k + 1) = 10 * 10 ^ k.
Proof. intros. rewrite Z.pow_add_r by lia. lia. Qed.

Lemma pow10_le (j k : Z) : 0 ≤ j ≤ k → 10 ^ j ≤ 10 ^ k.
Proof. intros. apply Z.pow_le_mono_r; lia. Qed.

Lemma pow10_lt_inv (j k : Z) : 0 ≤ k → 10 ^ j < 10 ^ k → j < k.
Proof. intros Hk Hlt. apply (Z.pow_lt_mono_r_iff 10); lia. Qed.

(** ** The logarithm *)

Section Logarithm.
Import Numpy.

Lemma log2_tenth (n : Z) : 10 ≤ n → Z.log2 (n / 10) < Z.log2 n.
Proof.
  intros Hn.
  assert (0 < n / 10) by (apply Z.div_str_pos; lia).
  apply Z.log2_lt_pow2; [lia |].
  pose proof (Z.log2_spec n ltac:(lia)) as [_ Hup].
  rewrite Z.pow_succ_r in Hup by apply Z.log2_nonneg.
  pose proof (Z.log2_nonneg n).
  assert (n / 10 ≤ n / 2).
  { apply Z.div_le_compat_l; lia. }
  assert (n / 2 < 2 ^ Z.log2 n) by (apply Z.div_lt_upper_bound; lia).
  lia.
Qed.

Lemma floor_log10_fuel_spec (fuel : nat) :
  ∀ n, 0 < n → Z.log2 n ≤ Z.of_nat fuel →
       0 ≤ floor_log10_fuel fuel n ∧
       10 ^ floor_log10_fuel fuel n ≤ n < 10 ^ (floor_log10_fuel fuel n + 1).
Proof.
  induction fuel as [|fuel IH]; intros n Hpos Hfuel; simpl.
  - assert (n < 2) as Hn.
    { destruct (decide (n < 2)) as [|Hge]; [done |].
      assert (1 ≤ Z.log2 n) by (apply (Z.log2_le_mono 2 n); lia). lia. }
    change (10 ^ 0) with 1. change (10 ^ (0 + 1)) with 10. lia.
  - destruct (Z.ltb_spec n 10) as [Hlt | Hge].
    + change (10 ^ 0) with 1. change (10 ^ (0 + 1)) with 10. lia.
    + pose proof (log2_tenth n Hge).
      assert (0 < n / 10) as Hq by (apply Z.div_str_pos; lia).
      destruct (IH (n / 10) Hq ltac:(lia)) as (Hf & Hlo & Hhi).
      set (f := floor_log10_fuel fuel (n / 10)) in *.
      split; [lia |].
      replace (1 + f + 1) with ((f + 1) + 1) by lia.
      replace (1 + f) with (f + 1) by lia.
      rewrite (pow10_succ (f + 1)), (pow10_succ f) in * by lia.
      pose proof (Z.div_mod n 10 ltac:(lia)).
      pose proof (Z.mod_pos_bound n 10 ltac:(lia)).
      lia.
Qed.

Lemma floor_log10_spec (n : Z) :
  0 < n →
  0 ≤ floor_log10 n ∧ 10 ^ floor_log10 n ≤ n < 10 ^ (floor_log10 n + 1).
Proof.
  intros Hn. apply floor_log10_fuel_spec; [done |].
  rewrite Z2Nat.id; [lia | apply Z.log2_nonneg].
Qed.

(** Rounding goes to one of the two neighbours of log10(n). *)
Lemma nearest_log10_neighbour (n : Z) :
  nearest_log10 n = floor_log10 n ∨ nearest_log10 n = floor_log10 n + 1.
Proof.
  unfold nearest_log10.
  destruct (n * n ?= 10 ^ (2 * floor_log10 n + 1)); [| by left | by right].
  destruct (Z.even (floor_log10 n)); [by left | by right].
Qed.

(** [nearest_log10 n] is within one half of log10(n), stated on squares:
    [10^(2p-1) <= n^2 <= 10^(2p+1)]. *)
Lemma nearest_log10_half (n : Z) :
  0 < n →
  let p := nearest_log10 n in
  0 ≤ p ∧ n * n ≤ 10 ^ (2 * p + 1) ∧ (0 < p → 10 ^ (2 * p - 1) ≤ n * n).
Proof.
  intros Hn p. subst p. unfold nearest_log10.
  destruct (floor_log10_spec n Hn) as (Hf & Hlo & Hhi).
  set (f := floor_log10 n) in *.
  assert (10 ^ (2 * f + 1) = 10 * (10 ^ f * 10 ^ f)) as Hmid.
  { rewrite pow10_succ by lia. replace (2 * f) with (f + f) by lia.
    by rewrite Z.pow_add_r by lia. }
  assert (10 ^ (2 * (f + 1) + 1) = 1000 * (10 ^ f * 10 ^ f)) as Hup.
  { replace (2 * (f + 1) + 1) with ((2 * f + 1) + 1 + 1) by lia.
    rewrite !(pow10_succ (_ + 1)) by lia. rewrite (pow10_succ (2 * f)) by lia.
    replace (2 * f) with (f + f) by lia. rewrite Z.pow_add_r by lia. lia. }
  assert (0 < f → 10 ^ (2 * f - 1) * 10 = 10 ^ f * 10 ^ f) as Hdown.
  { intros. replace (2 * f) with (f + f) by lia.
    rewrite <- Z.pow_add_r by lia.
    replace (f + f) with ((f + f - 1) + 1) at 2 by lia.
    rewrite pow10_succ by lia. lia. }
  rewrite pow10_succ in Hhi by lia.
  pose proof (pow10_pos f Hf).
  assert (10 ^ f * 10 ^ f ≤ n * n) by nia.
  assert (n * n < 100 * (10 ^ f * 10 ^ f)) by nia.
  destruct (Z.compare_spec (n * n) (10 ^ (2 * f + 1))) as [Heq | Hlt | Hgt].
  - destruct (Z.even f).
    + split; [lia |]. split; [lia |]. intros Hp. specialize (Hdown Hp). nia.
    + split; [lia |]. split; [lia |]. intros _.
      replace (2 * (f + 1) - 1) with (2 * f + 1) by lia. lia.
  - split; [lia |]. split; [lia |]. intros Hp. specialize (Hdown Hp). nia.
  - split; [lia |]. split; [lia |]. intros _.
    replace (2 * (f + 1) - 1) with (2 * f + 1) by lia. lia.
Qed.

End Logarithm.

(** ** The escalation step *)

(** Lines [r = 10**p; if r <= n: r = 10 ** (p + 1)] return the smallest
    power of ten above [n] for either neighbour [p] of log10(n): whichever
    way the floating-point logarithm is rounded, the radix is the same. *)
Lemma next_power_tolerant (n p : Z) :
  0 < n →
  p = Numpy.floor_log10 n ∨ p = Numpy.floor_log10 n + 1 →
  smallest_power_of_ten_above n (next_power n p).
Proof.
  intros Hn Hp.
  destruct (floor_log10_spec n Hn) as (Hf & Hlo & Hhi).
  set (f := Numpy.floor_log10 n) in *.
  unfold next_power, smallest_power_of_ten_above.
  case_bool_decide as Hle.
  - assert (p = f) as ->.
    { destruct Hp as [-> | ->]; [done | lia]. }
    split; [exists (f + 1); lia |]. split; [lia |].
    intros j Hj Hlt.
    apply pow10_le. split; [lia |].
    assert (f < j) by (apply pow10_lt_inv; lia). lia.
  - assert (p = f + 1) as ->.
    { destruct Hp as [-> | ->]; [lia | done]. }
    split; [exists (f + 1); lia |]. split; [lia |].
    intros j Hj Hlt.
    apply pow10_le. split; [lia |].
    assert (f < j) by (apply pow10_lt_inv; lia). lia.
Qed.

Local Ltac destruct_cases :=
  repeat match goal with
         | H : _ ∧ _ |- _ => destruct H
         | H : _ ∨ _ |- _ => destruct H
         | H : ∃ _, _ |- _ => destruct H
         end.

(** ** The radix *)

Lemma log10_in_range (n : Z) :
  - 2 ^ 63 ≤ n < 2 ^ 64 →
  Numpy.log10 n = Ok match n with
                     | Zpos q => Numpy.log10_of q
                     | Z0 => Numpy.neg_inf
                     | Zneg _ => Numpy.nan
                     end.
Proof. intros Hn. unfold Numpy.log10. by rewrite bool_decide_eq_true_2. Qed.

Lemma log10_out_of_range (n : Z) :
  n < - 2 ^ 63 ∨ 2 ^ 64 ≤ n → Numpy.log10 n = Raise TypeError.
Proof. intros Hn. unfold Numpy.log10. rewrite bool_decide_eq_false_2; [done | lia]. Qed.

Lemma computeRadix_pos (n : Z) :
  0 < n < 2 ^ 64 → computeRadix n = Ok (next_power n (Numpy.nearest_log10 n)).
Proof.
  intros Hn. unfold computeRadix. rewrite log10_in_range by lia.
  destruct n; [lia | done | lia].
Qed.

(** What each range of the bound leads to. *)
Lemma computeRadix_cases (n : Z) :
  (0 < n < 2 ^ 64 ∧ computeRadix n = Ok (next_power n (Numpy.nearest_log10 n))) ∨
  (n = 0 ∧ computeRadix n = Raise OverflowError) ∨
  (- 2 ^ 63 ≤ n < 0 ∧ computeRadix n = Raise ValueError) ∨
  ((n < - 2 ^ 63 ∨ 2 ^ 64 ≤ n) ∧ computeRadix n = Raise TypeError).
Proof.
  destruct (decide (- 2 ^ 63 ≤ n < 2 ^ 64)) as [Hin | Hout].
  - unfold computeRadix. rewrite log10_in_range by done.
    destruct n as [| q | q].
    + right; left. done.
    + left. split; [lia | done].
    + right; right; left. split; [lia | done].
  - right; right; right.
    assert (n < - 2 ^ 63 ∨ 2 ^ 64 ≤ n) as Hn by lia.
    split; [done |]. unfold computeRadix. by rewrite log10_out_of_range.
Qed.

(** C1, as stated, fails at 2^64: numpy does not take the logarithm of a
    Python int that large, and the computation raises [TypeError] instead of
    returning a radix. *)
Lemma computeRadix_beyond_uint64 :
  0 < 2 ^ 64 ∧
  computeRadix (2 ^ 64) = Raise TypeError ∧
  ¬ ∃ r, computeRadix (2 ^ 64) = Ok r ∧ smallest_power_of_ten_above (2 ^ 64) r.
Proof.
  split; [lia |]. split; [reflexivity |]. by intros (r & Hr & _).
Qed.

(** C1, amended: for every positive [maxIterations] below 2^64 the radix
    computation returns the smallest power of ten strictly greater than
    [maxIterations]. *)
Theorem computeRadix_smallest_power (n : Z) :
  0 < n < 2 ^ 64 → ∃ r, computeRadix n = Ok r ∧ smallest_power_of_ten_above n r.
Proof.
  intros Hn. eexists. split; [by apply computeRadix_pos |].
  apply next_power_tolerant; [lia | apply nearest_log10_neighbour].
Qed.

Lemma computeRadix_smallest_power_witness :
  0 < 10 < 2 ^ 64 ∧ ∃ r, computeRadix 10 = Ok r ∧ smallest_power_of_ten_above 10 r.
Proof. split; [lia | apply (computeRadix_smallest_power 10); lia]. Defined.

(** C6: the concrete radix values of the round-based formula: 100 for 10,
    10 for 4, 10 for 9, 100 for 11, and 10 for the boundary value 1. *)
Theorem computeRadix_values :
  computeRadix 10 = Ok 100 ∧
  computeRadix 4 = Ok 10 ∧
  computeRadix 9 = Ok 10 ∧
  computeRadix 11 = Ok 100 ∧
  computeRadix 1 = Ok 10.
Proof. repeat split; reflexivity. Qed.

(** The rounded logarithms behind these values: log10(4) = 0.602 and
    log10(9) = 0.954 round up to 1, so [10**p] already exceeds 4 and 9;
    for 1, 10 and 11 the first candidate is 1, 10 and 10, not above [n], and
    the escalation branch is taken. *)
Example nearest_log10_values :
  map Numpy.nearest_log10 [1; 4; 9; 10; 11] = [0; 1; 1; 1; 1] ∧
  map (λ n, bool_decide (10 ^ Numpy.nearest_log10 n ≤ n)) [1; 4; 9; 10; 11]
    = [true; false; false; true; true].
Proof. split; reflexivity. Qed.

(** ** Failure of the radix computation *)

Lemma exn_name_builtin (e : exn) : exn_name e ≠ "InvalidConfiguration"%string.
Proof. by destruct e. Qed.

(** C5, as stated, fails at zero: the computation raises [OverflowError]
    (from [round] on [-inf]), not an error called InvalidConfiguration. *)
Lemma computeRadix_zero_overflow :
  computeRadix 0 = Raise OverflowError ∧
  ¬ ∃ e, computeRadix 0 = Raise e ∧ exn_name e = "InvalidConfiguration"%string.
Proof.
  split; [reflexivity |].
  intros (e & _ & Hname). by apply (exn_name_builtin e).
Qed.

(** C5, amended: the radix computation succeeds exactly for a positive
    [maxIterations] below 2^64 and fails for every other integer, with the
    exception the library call raises: [OverflowError] for zero ([round] on
    [-inf]), [ValueError] for a negative value down to -2^63 ([round] on
    [nan]), and [TypeError] for an integer outside the 64-bit range
    ([np.log10]).  The code has no validation of its own. *)
Theorem computeRadix_fails_iff (n : Z) :
  (succeeds (computeRadix n) ↔ 0 < n < 2 ^ 64) ∧
  (fails (computeRadix n) ↔ n ≤ 0 ∨ 2 ^ 64 ≤ n) ∧
  (computeRadix n = Raise OverflowError ↔ n = 0) ∧
  (computeRadix n = Raise ValueError ↔ - 2 ^ 63 ≤ n < 0) ∧
  (computeRadix n = Raise TypeError ↔ n < - 2 ^ 63 ∨ 2 ^ 64 ≤ n).
Proof.
  unfold fails, succeeds.
  destruct (computeRadix_cases n) as [[Hn ->] | [[Hn ->] | [[Hn ->] | [Hn ->]]]];
    repeat split; intros; destruct_cases; first [ done | lia | by eauto ].
Qed.

(** ** The encoding *)

(** C2: for indices below the radix, encoded values compare as the pairs
    (time step, iteration) compare lexicographically; in particular the
    encoding increases with the iteration index inside a time step, and every
    label of an earlier time step is below every label of a later one. *)
Theorem encode_lexicographic (r t1 i1 t2 i2 : Z) :
  0 ≤ t1 → 0 ≤ t2 → 0 ≤ i1 < r → 0 ≤ i2 < r →
  (encode t1 i1 r < encode t2 i2 r ↔ t1 < t2 ∨ (t1 = t2 ∧ i1 < i2)) ∧
  (t1 = t2 → i1 < i2 → encode t1 i1 r < encode t2 i2 r) ∧
  (t1 < t2 → encode t1 i1 r < encode t2 i2 r).
Proof.
  intros Ht1 Ht2 Hi1 Hi2. unfold encode.
  assert (t1 < t2 → i1 + r * t1 < i2 + r * t2) as Hstep by nia.
  split; [| split; [intros -> ?; lia | done]].
  split.
  - intros Hlt.
    destruct (Z.lt_trichotomy t1 t2) as [? | [-> | Hgt]]; [by left | right; lia |].
    assert (i2 + r * t2 < i1 + r * t1) by nia. lia.
  - intros [Hlt | [-> Hlt]]; [by apply Hstep | lia].
Qed.

Lemma encode_lexicographic_witness :
  (encode 0 99 100 < encode 1 0 100 ↔ 0 < 1 ∨ (0 = 1 ∧ 99 < 0)) ∧
  (0 = 1 → 99 < 0 → encode 0 99 100 < encode 1 0 100) ∧
  (0 < 1 → encode 0 99 100 < encode 1 0 100).
Proof. apply (encode_lexicographic 100 0 99 1 0); lia. Defined.

(** C3: truncated division and remainder by the radix recover the time-step
    index and the iteration index from an encoded value. *)
Theorem encode_round_trip (r t i : Z) :
  0 < r → 0 ≤ t → 0 ≤ i < r →
  encode t i r ÷ r = t ∧ Z.rem (encode t i r) r = i.
Proof.
  intros Hr Ht Hi. unfold encode.
  assert (0 ≤ i + r * t) by nia.
  rewrite Z.quot_div_nonneg, Z.rem_mod_nonneg by lia.
  split; symmetry.
  - apply (Z.div_unique _ r t i); lia.
  - apply (Z.mod_unique _ r t i); lia.
Qed.

Lemma encode_round_trip_witness :
  encode 3 7 100 ÷ 100 = 3 ∧ Z.rem (encode 3 7 100) 100 = 7.
Proof. apply (encode_round_trip 100 3 7); lia. Defined.

(** * Properties of the data methods *)

Section ExportDataProperties.

Context {Values : Type}.
Variable get_variable_values : Var → Values.
Variable convert_units : Values → string → Values.
Variable evaluate_and_scale : Grid → string → string → Values.

Lemma loop_found (variables : list Var) (units : list string) :
  Forall2 (λ var u, tags var !! "si_units"%string = Some u) variables units →
  ∀ data, data_to_export_iteration_loop get_variable_values convert_units variables data = Found (data ++ zip_with (entry_of get_variable_values convert_units) variables units).
Proof.
  induction 1 as [| var u variables units Hu _ IH]; intros data; simpl.
  - by rewrite app_nil_r.
  - unfold getitem. rewrite Hu. simpl. rewrite IH.
    by rewrite <- app_assoc.
Qed.

Lemma loop_key_error (variables : list Var) :
  ∀ data key, data_to_export_iteration_loop get_variable_values convert_units variables data = KeyError key →
              key = "si_units"%string ∧
              Exists (λ var, tags var !! "si_units"%string = None) variables.
Proof.
  induction variables as [| var variables IH]; intros data key; simpl; [done |].
  unfold getitem. destruct (tags var !! "si_units"%string) as [u |] eqn:Hu; simpl.
  - intros Hloop. destruct (IH _ _ Hloop) as [-> Hex].
    split; [done | by apply Exists_cons_tl].
  - intros [= <-]. split; [done | by apply Exists_cons_hd].
Qed.

Lemma loop_missing_tag (variables : list Var) :
  Exists (λ var, tags var !! "si_units"%string = None) variables →
  ∀ data, data_to_export_iteration_loop get_variable_values convert_units variables data = KeyError "si_units".
Proof.
  induction 1 as [var variables Hnone | var variables _ IH]; intros data; simpl.
  - unfold getitem. by rewrite Hnone.
  - unfold getitem. destruct (tags var !! "si_units"%string); simpl; [apply IH | done].
Qed.

(** X11: when every variable carries an ["si_units"] tag,
    [data_to_export_iteration] returns one entry for each variable, in the
    order of the variables: its domain, its name and its values converted
    with the units of its tag. *)
Theorem data_to_export_iteration_found
    (variables : list Var) (units : list string) :
  Forall2 (λ var u, tags var !! "si_units"%string = Some u) variables units →
  data_to_export_iteration get_variable_values convert_units variables
    = Found (zip_with (entry_of get_variable_values convert_units) variables units).
Proof.
  intros Htags. unfold data_to_export_iteration.
  by rewrite (loop_found variables units Htags).
Qed.

(** X12: [data_to_export_iteration] raises [KeyError] exactly when some
    variable has no ["si_units"] tag; the key reported is always
    ["si_units"], and nothing of the data collected before is returned. *)
Theorem data_to_export_iteration_key_error (variables : list Var) :
  (data_to_export_iteration get_variable_values convert_units variables
     = KeyError "si_units"
   ↔ Exists (λ var, tags var !! "si_units"%string = None) variables) ∧
  (∀ key, data_to_export_iteration get_variable_values convert_units variables
            = KeyError key → key = "si_units"%string).
Proof.
  unfold data_to_export_iteration. split; [split |].
  - intros Hloop. by destruct (loop_key_error _ _ _ Hloop).
  - intros Hex. by apply loop_missing_tag.
  - intros key Hloop. by destruct (loop_key_error _ _ _ Hloop).
Qed.

Lemma foldl_append_entries (sds : list Grid) :
  ∀ data : list (@entry Values),
    foldl (λ data sd,
             let vals := evaluate_and_scale sd "displacement_jump" "m" in
             data ++ [(sd, "displacement_jump"%string, vals)]) data sds
    = data ++ map (jump_entry evaluate_and_scale) sds.
Proof.
  induction sds as [| sd sds IH]; intros data; simpl.
  - by rewrite app_nil_r.
  - rewrite IH. by rewrite <- app_assoc.
Qed.

Lemma data_to_export_eq (super_data : list entry) (mdg : list Grid) (nd : Z) :
  data_to_export evaluate_and_scale super_data mdg nd
    = super_data ++ map (jump_entry evaluate_and_scale) (subdomains mdg (nd - 1)).
Proof. unfold data_to_export. apply foldl_append_entries. Qed.

(** X13: [DisplacementJumpExporting.data_to_export] returns the data of the
    parent method unchanged and in place, followed by one
    ["displacement_jump"] entry for each subdomain of dimension [nd - 1], in
    grid order. *)
Theorem data_to_export_appends (super_data : list entry) (mdg : list Grid) (nd : Z) :
  data_to_export evaluate_and_scale super_data mdg nd
    = super_data ++ map (jump_entry evaluate_and_scale) (filter (λ sd, dim sd = nd - 1) mdg).
Proof. apply data_to_export_eq. Qed.

(** X14: in a grid without subdomains of dimension [nd - 1] (no fractures),
    [data_to_export] returns the parent's data and nothing else. *)
Theorem data_to_export_no_fractures (super_data : list entry) (mdg : list Grid) (nd : Z) :
  Forall (λ sd, dim sd ≠ nd - 1) mdg →
  data_to_export evaluate_and_scale super_data mdg nd = super_data.
Proof.
  intros Hdim. rewrite data_to_export_eq. unfold subdomains.
  assert (filter (λ sd, dim sd = nd - 1) mdg = []) as ->.
  { induction Hdim as [| sd mdg Hsd _ IH]; [done |].
    rewrite filter_cons. by rewrite decide_False. }
  by rewrite app_nil_r.
Qed.

(** X15: whatever the parent's data, every entry that [data_to_export] adds
    is named ["displacement_jump"] and sits on a subdomain of the grid of
    dimension [nd - 1]; their number is the number of such subdomains. *)
Theorem data_to_export_added (super_data : list entry) (mdg : list Grid) (nd : Z) :
  let data := data_to_export evaluate_and_scale super_data mdg nd in
  take (length super_data) data = super_data ∧
  length data = (length super_data + length (subdomains mdg (nd - 1)))%nat ∧
  Forall (λ e : entry, e.1.2 = "displacement_jump"%string ∧
                       dim e.1.1 = nd - 1 ∧ e.1.1 ∈ mdg)
         (drop (length super_data) data).
Proof.
  simpl. rewrite data_to_export_eq.
  split; [by rewrite take_app_length |].
  split; [by rewrite length_app, length_map |].
  rewrite drop_app_length. apply Forall_map, Forall_forall.
  intros sd Hsd. unfold subdomains in Hsd.
  apply list_elem_of_filter in Hsd as [Hdim Hin]. by simpl.
Qed.

End ExportDataProperties.

Lemma data_to_export_iteration_found_witness :
  data_to_export_iteration (λ var, name var) (λ values units, values +:+ units)
                           [pressure; interface_flux]
    = Found (zip_with (entry_of (λ var, name var) (λ values units, values +:+ units))
                      [pressure; interface_flux] ["Pa"; "m^3 * s^-1"]%string).
Proof.
  apply (data_to_export_iteration_found
           (λ var, name var) (λ values units, values +:+ units)
           [pressure; interface_flux] ["Pa"; "m^3 * s^-1"]%string).
  repeat constructor.
Defined.

Lemma data_to_export_no_fractures_witness :
  data_to_export (λ sd _ _, dim sd) [(matrix_grid, "pressure"%string, 7)]
                 [matrix_grid] 2
    = [(matrix_grid, "pressure"%string, 7)].
Proof.
  apply (data_to_export_no_fractures (λ sd _ _, dim sd)
           [(matrix_grid, "pressure"%string, 7)] [matrix_grid] 2).
  repeat constructor. simpl. lia.
Defined.

(** The data collection of a model succeeds when all its variables are
    tagged, and a [KeyError] from it always names ["si_units"]. *)
Lemma export_data_tagged (self : Model) :
  Forall tagged (variables self) → ∃ data, export_data self = Found data.
Proof.
  intros Htagged. unfold export_data, data_to_export_iteration.
  destruct (data_to_export_iteration_loop _ _ _ _) as [data | key] eqn:Hloop; [eauto |].
  apply loop_key_error in Hloop as [_ Hex].
  apply Exists_exists in Hex as (var & Hin & Hnone).
  rewrite Forall_forall in Htagged.
  destruct (Htagged var Hin) as [u Hu]. congruence.
Qed.

Lemma export_data_key_error (self : Model) (key : string) :
  export_data self = KeyError key →
  key = "si_units"%string ∧ Exists (λ var, ¬ tagged var) (variables self).
Proof.
  unfold export_data, data_to_export_iteration. intros Hloop.
  apply loop_key_error in Hloop as [-> Hex]. split; [done |].
  eapply Exists_impl; [exact Hex |].
  intros var Hnone [u Hu]. congruence.
Qed.

Lemma export_data_untagged (self : Model) :
  Exists (λ var, ¬ tagged var) (variables self) →
  export_data self = KeyError "si_units".
Proof.
  intros Hex. unfold export_data, data_to_export_iteration.
  apply loop_missing_tag. eapply Exists_impl; [exact Hex |].
  intros var Hvar. simpl. unfold tagged in Hvar.
  destruct (tags var !! "si_units"%string) eqn:Htag; [| done].
  exfalso. apply Hvar. by eexists.
Qed.

(** * Properties of [save_data_iteration] *)

(** ** One export *)

Lemma save_data_iteration_radix (self : Model) (r : Z) :
  computeRadix (max_iterations self) = Ok r →
  save_data_iteration self =
    (data ← propagate (export_data self);
     mret (write_vtu data (encode (time_index self) (num_iteration self) r) self)).
Proof. unfold save_data_iteration. intros ->. reflexivity. Qed.

Lemma save_data_iteration_raise (self : Model) (e : exn) :
  computeRadix (max_iterations self) = Raise e →
  save_data_iteration self = Raise e.
Proof. unfold save_data_iteration. intros ->. reflexivity. Qed.

Lemma save_data_iteration_found (self : Model) (r : Z) (data : list entry) :
  computeRadix (max_iterations self) = Ok r →
  export_data self = Found data →
  save_data_iteration self =
    Ok (write_vtu data (encode (time_index self) (num_iteration self) r) self).
Proof.
  intros Hr Hdata. rewrite (save_data_iteration_radix self r Hr).
  by rewrite Hdata.
Qed.

(** Past the radix, the only exception left is the [KeyError] of the data
    collection. *)
Lemma save_data_iteration_key_error (self : Model) (r : Z) (e : exn) :
  computeRadix (max_iterations self) = Ok r →
  save_data_iteration self = Raise e →
  e = Key_Error "si_units" ∧ Exists (λ var, ¬ tagged var) (variables self).
Proof.
  intros Hr. rewrite (save_data_iteration_radix self r Hr).
  destruct (export_data self) as [data | key] eqn:Hdata; simpl; [done |].
  intros [= <-]. by destruct (export_data_key_error self key Hdata) as [-> ?].
Qed.

(** A successful export went through both stages. *)
Lemma save_data_iteration_ok (self self' : Model) :
  save_data_iteration self = Ok self' →
  ∃ r data,
    computeRadix (max_iterations self) = Ok r ∧
    export_data self = Found data ∧
    self' = write_vtu data (encode (time_index self) (num_iteration self) r) self.
Proof.
  unfold save_data_iteration.
  destruct (computeRadix (max_iterations self)) as [r | e]; simpl; [| done].
  destruct (export_data self) as [data | key]; simpl; [| done].
  intros [= <-]. by exists r, data.
Qed.

Example save_data_iteration_untagged :
  save_data_iteration model_untagged = Raise (Key_Error "si_units").
Proof. reflexivity. Qed.

(** C7: the encoder does not check the iteration index against the radix.
    For non-negative indices and a positive radix, also when the iteration
    index has reached or passed the radix, the label is
    [timeStepIndex * radix + iterationIndex].  An export whose radix
    computation succeeded writes that label whenever its data collection
    returns, and the only exception it can still end with is the [KeyError]
    of the data collection: there is none for the bound being exceeded. *)
Theorem encode_total_unchecked (t i r : Z) :
  0 ≤ t → 0 ≤ i → 0 < r →
  encode t i r = t * r + i ∧
  ∀ self : Model,
    computeRadix (max_iterations self) = Ok r →
    (∀ data, export_data self = Found data →
       save_data_iteration (set_counters t i self) =
         Ok (write_vtu data (t * r + i) (set_counters t i self))) ∧
    (Forall tagged (variables self) →
       succeeds (save_data_iteration (set_counters t i self))) ∧
    (∀ e, save_data_iteration (set_counters t i self) = Raise e →
          e = Key_Error "si_units").
Proof.
  intros _ _ _.
  assert (encode t i r = t * r + i) as Henc by (unfold encode; lia).
  split; [done |].
  intros self Hr. rewrite <- Henc. split; [| split].
  - intros data Hdata. by apply save_data_iteration_found.
  - intros Htagged. destruct (export_data_tagged self Htagged) as [data Hdata].
    eexists. by apply (save_data_iteration_found (set_counters t i self) r data).
  - intros e He.
    by destruct (save_data_iteration_key_error (set_counters t i self) r e Hr He).
Qed.

Lemma encode_total_unchecked_witness :
  100 ≤ 250 ∧
  encode 1 250 100 = 1 * 100 + 250 ∧
  ∀ self : Model,
    computeRadix (max_iterations self) = Ok 100 →
    (∀ data, export_data self = Found data →
       save_data_iteration (set_counters 1 250 self) =
         Ok (write_vtu data (1 * 100 + 250) (set_counters 1 250 self))) ∧
    (Forall tagged (variables self) →
       succeeds (save_data_iteration (set_counters 1 250 self))) ∧
    (∀ e, save_data_iteration (set_counters 1 250 self) = Raise e →
          e = Key_Error "si_units").
Proof. split; [lia | apply (encode_total_unchecked 1 250 100); lia]. Defined.

(** With the bound exceeded the order across time steps is lost: iteration
    100 of time step 0 and iteration 0 of time step 1 get the same label. *)
Example encode_collision : encode 0 100 100 = encode 1 0 100.
Proof. reflexivity. Qed.

(** C8: the label is a function of the time index, the iteration index and
    the maximum-iterations entry alone.  Two models that agree on these three
    write the same label whenever both exports return, and raise the same
    exception whenever both raise; one can raise while the other returns
    only through the [KeyError] of its data collection, which is no part of
    the encoding.  An export leaves the parameters and both counters as they
    were. *)
Theorem save_data_iteration_deterministic (m1 m2 : Model) :
  max_iterations m1 = max_iterations m2 →
  time_index m1 = time_index m2 →
  num_iteration m1 = num_iteration m2 →
  computeRadix (max_iterations m1) = computeRadix (max_iterations m2) ∧
  match save_data_iteration m1, save_data_iteration m2 with
  | Ok m1', Ok m2' =>
      ∃ k data1 data2,
        m1' = write_vtu data1 k m1 ∧ m2' = write_vtu data2 k m2 ∧
        iteration_exporter m1' = iteration_exporter m1 ++ [k] ∧
        iteration_exporter m2' = iteration_exporter m2 ++ [k] ∧
        params m1' = params m1 ∧
        time_index m1' = time_index m1 ∧
        num_iteration m1' = num_iteration m1
  | Raise e1, Raise e2 => e1 = e2
  | Ok _, Raise e | Raise e, Ok _ => e = Key_Error "si_units"
  end.
Proof.
  intros Hn Ht Hi. split; [by rewrite Hn |].
  destruct (computeRadix (max_iterations m1)) as [r | e] eqn:Hr1.
  - assert (computeRadix (max_iterations m2) = Ok r) as Hr2 by (by rewrite <- Hn).
    destruct (save_data_iteration m1) as [m1' | e1] eqn:H1,
             (save_data_iteration m2) as [m2' | e2] eqn:H2.
    + apply save_data_iteration_ok in H1 as (r1 & data1 & Hr1' & _ & ->).
      apply save_data_iteration_ok in H2 as (r2 & data2 & Hr2' & _ & ->).
      assert (r1 = r) as -> by congruence. assert (r2 = r) as -> by congruence.
      exists (encode (time_index m1) (num_iteration m1) r), data1, data2.
      rewrite <- Ht, <- Hi. by repeat split.
    + by destruct (save_data_iteration_key_error m2 r e2 Hr2 H2).
    + by destruct (save_data_iteration_key_error m1 r e1 Hr1 H1).
    + destruct (save_data_iteration_key_error m1 r e1 Hr1 H1) as [-> _].
      by destruct (save_data_iteration_key_error m2 r e2 Hr2 H2) as [-> _].
  - assert (computeRadix (max_iterations m2) = Raise e) as Hr2 by (by rewrite <- Hn).
    by rewrite (save_data_iteration_raise m1 e Hr1), (save_data_iteration_raise m2 e Hr2).
Qed.

Lemma save_data_iteration_deterministic_witness :
  computeRadix (max_iterations model_a) = computeRadix (max_iterations model_b) ∧
  match save_data_iteration model_a, save_data_iteration model_b with
  | Ok m1', Ok m2' =>
      ∃ k data1 data2,
        m1' = write_vtu data1 k model_a ∧ m2' = write_vtu data2 k model_b ∧
        iteration_exporter m1' = iteration_exporter model_a ++ [k] ∧
        iteration_exporter m2' = iteration_exporter model_b ++ [k] ∧
        params m1' = params model_a ∧
        time_index m1' = time_index model_a ∧
        num_iteration m1' = num_iteration model_a
  | Raise e1, Raise e2 => e1 = e2
  | Ok _, Raise e | Raise e, Ok _ => e = Key_Error "si_units"
  end.
Proof.
  apply (save_data_iteration_deterministic model_a model_b); reflexivity.
Defined.

(** C10: without a ["max_iterations"] entry the bound is 10 and the radix is
    100; the export writes the label [100 * time_index + num_iteration]
    whenever its data collection returns, and nothing is raised for the
    missing key: the only exception the export can end with is the
    [KeyError] of the data collection. *)
Theorem save_data_iteration_default (self : Model) :
  params self !! "max_iterations"%string = None →
  max_iterations self = 10 ∧
  computeRadix (max_iterations self) = Ok 100 ∧
  (∀ data, export_data self = Found data →
     save_data_iteration self =
       Ok (write_vtu data (100 * time_index self + num_iteration self) self)) ∧
  (Forall tagged (variables self) → succeeds (save_data_iteration self)) ∧
  (∀ e, save_data_iteration self = Raise e → e = Key_Error "si_units").
Proof.
  intros Hnone.
  assert (max_iterations self = 10) as Hn.
  { unfold max_iterations. by rewrite Hnone. }
  assert (computeRadix (max_iterations self) = Ok 100) as Hr by (by rewrite Hn).
  split; [done |]. split; [done |]. split; [| split].
  - intros data Hdata. rewrite (save_data_iteration_found self 100 data Hr Hdata).
    unfold encode. do 2 f_equal. lia.
  - intros Htagged. destruct (export_data_tagged self Htagged) as [data Hdata].
    eexists. by apply (save_data_iteration_found self 100 data).
  - intros e He. by destruct (save_data_iteration_key_error self 100 e Hr He).
Qed.

Lemma save_data_iteration_default_witness :
  params model_default !! "max_iterations"%string = None ∧
  max_iterations model_default = 10 ∧
  computeRadix (max_iterations model_default) = Ok 100 ∧
  (∀ data, export_data model_default = Found data →
     save_data_iteration model_default =
       Ok (write_vtu data
             (100 * time_index model_default + num_iteration model_default)
             model_default)) ∧
  (Forall tagged (variables model_default) →
     succeeds (save_data_iteration model_default)) ∧
  (∀ e, save_data_iteration model_default = Raise e → e = Key_Error "si_units").
Proof.
  split; [reflexivity |].
  apply (save_data_iteration_default model_default). reflexivity.
Defined.

Example save_data_iteration_default_label :
  iteration_exporter model_default = [] ∧
  ∃ self', save_data_iteration model_default = Ok self' ∧
           iteration_exporter self' = [704].
Proof.
  split; [reflexivity |]. eexists. split; [vm_compute; reflexivity | reflexivity].
Qed.

(** ** A run of exports *)

Lemma max_iterations_set_counters (t i : Z) (self : Model) :
  max_iterations (set_counters t i self) = max_iterations self.
Proof. reflexivity. Qed.

Lemma max_iterations_write_vtu (data : list entry) (k : Z) (self : Model) :
  max_iterations (write_vtu data k self) = max_iterations self.
Proof. reflexivity. Qed.

Lemma run_exports_app (pre post : list (Z * Z)) (self : Model) :
  run_exports (pre ++ post) self =
    (mid ← run_exports pre self; run_exports post mid).
Proof.
  revert self. induction pre as [|[t i] pre IH]; intros self; simpl; [done |].
  destruct (save_data_iteration (set_counters t i self)); simpl; [apply IH | done].
Qed.

(** Whatever a run returns, it has kept the parameters and the variables
    and appended the labels of its calls under the radix of the start. *)
Lemma run_exports_ok (r : Z) (calls : list (Z * Z)) :
  ∀ self self' : Model,
    computeRadix (max_iterations self) = Ok r →
    run_exports calls self = Ok self' →
    params self' = params self ∧
    variables self' = variables self ∧
    iteration_exporter self' = iteration_exporter self ++ labels r calls.
Proof.
  induction calls as [| [t i] calls IH]; intros self self' Hr; simpl.
  - intros [= <-]. by rewrite app_nil_r.
  - destruct (save_data_iteration (set_counters t i self)) as [mid |] eqn:Hsave;
      simpl; [| done].
    apply save_data_iteration_ok in Hsave as (r' & data & Hr' & _ & ->).
    assert (r' = r) as -> by (rewrite max_iterations_set_counters in Hr'; congruence).
    intros Hrun. apply IH in Hrun as (Hpar & Hvars & Hexp); [| exact Hr].
    split; [done |]. split; [done |].
    rewrite Hexp. simpl. by rewrite <- app_assoc.
Qed.

(** With a radix [r] for the configured bound and all variables tagged, a
    run goes through. *)
Lemma run_exports_labels (r : Z) (calls : list (Z * Z)) :
  ∀ self : Model,
    computeRadix (max_iterations self) = Ok r →
    Forall tagged (variables self) →
    ∃ self', run_exports calls self = Ok self' ∧
             params self' = params self ∧
             iteration_exporter self' = iteration_exporter self ++ labels r calls.
Proof.
  induction calls as [| [t i] calls IH]; intros self Hr Htagged; simpl.
  - exists self. by rewrite app_nil_r.
  - destruct (export_data_tagged self Htagged) as [data Hdata].
    rewrite (save_data_iteration_found (set_counters t i self) r data) by done.
    simpl.
    destruct (IH (write_vtu data (encode t i r) (set_counters t i self)) Hr Htagged)
      as (self' & Hrun & Hpar & Hexp).
    exists self'. split; [done |]. split; [done |].
    rewrite Hexp. simpl. by rewrite <- app_assoc.
Qed.

(** C9: while the configuration stays as it is, every [save_data_iteration]
    call of a run computes the same radix: whatever calls came before, the
    call at counters [(t, i)] finds the radix of the initial configuration.
    With all variables tagged the calls before it return, and the call
    writes [encode t i r]. *)
Theorem run_exports_same_radix (self : Model) (r : Z) (pre : list (Z * Z)) (t i : Z) :
  computeRadix (max_iterations self) = Ok r →
  (∀ mid, run_exports pre self = Ok mid →
          computeRadix (max_iterations (set_counters t i mid)) = Ok r) ∧
  (Forall tagged (variables self) →
   ∃ mid data,
     run_exports pre self = Ok mid ∧
     computeRadix (max_iterations (set_counters t i mid)) = Ok r ∧
     save_data_iteration (set_counters t i mid) =
       Ok (write_vtu data (encode t i r) (set_counters t i mid))).
Proof.
  intros Hr.
  assert (∀ mid, run_exports pre self = Ok mid →
                 computeRadix (max_iterations (set_counters t i mid)) = Ok r) as Hsame.
  { intros mid Hrun. destruct (run_exports_ok r pre self mid Hr Hrun) as (Hpar & _).
    rewrite max_iterations_set_counters. unfold max_iterations.
    rewrite Hpar. exact Hr. }
  split; [done |]. intros Htagged.
  destruct (run_exports_labels r pre self Hr Htagged) as (mid & Hrun & _ & _).
  destruct (run_exports_ok r pre self mid Hr Hrun) as (_ & Hvars & _).
  destruct (export_data_tagged mid ltac:(by rewrite Hvars)) as [data Hdata].
  exists mid, data. split; [done |]. split; [by apply Hsame |].
  apply save_data_iteration_found; [by apply Hsame | done].
Qed.

Lemma run_exports_same_radix_witness :
  computeRadix (max_iterations model_a) = Ok 100 ∧
  (∀ mid, run_exports [(0, 1); (0, 2); (1, 1)] model_a = Ok mid →
          computeRadix (max_iterations (set_counters 1 2 mid)) = Ok 100) ∧
  (Forall tagged (variables model_a) →
   ∃ mid data,
     run_exports [(0, 1); (0, 2); (1, 1)] model_a = Ok mid ∧
     computeRadix (max_iterations (set_counters 1 2 mid)) = Ok 100 ∧
     save_data_iteration (set_counters 1 2 mid) =
       Ok (write_vtu data (encode 1 2 100) (set_counters 1 2 mid))).
Proof.
  split; [reflexivity |].
  apply (run_exports_same_radix model_a 100 [(0, 1); (0, 2); (1, 1)] 1 2).
  reflexivity.
Defined.

Lemma caller_step_lt (r : Z) (c c' : Z * Z) :
  in_range r c → in_range r c' → caller_step c c' →
  encode c.1 c.2 r < encode c'.1 c'.2 r.
Proof.
  intros [Ht Hi] [Ht' Hi'] Hstep.
  destruct Hstep as [t i | t i]; simpl in *; unfold encode; nia.
Qed.

Lemma labels_sorted (r : Z) (calls : list (Z * Z)) :
  Sorted caller_step calls → Forall (in_range r) calls →
  Sorted Z.lt (labels r calls).
Proof.
  induction 1 as [| c calls Hsorted IH Hhd]; intros Hrange; simpl.
  - constructor.
  - apply Forall_cons_1 in Hrange as [Hc Hcalls].
    constructor; [by apply IH |].
    destruct Hhd as [| c' calls' Hstep]; simpl; constructor.
    apply Forall_cons_1 in Hcalls as [Hc' _].
    by apply caller_step_lt.
Qed.

(** C4: when the caller moves the counters as agreed (one more iteration, or
    the next time step with the iteration index reset to zero) and keeps the
    iteration index below the radix, the labels of the calls are strictly
    increasing in program order, and they are what a run that returns has
    written; with all variables tagged the run returns.  With
    ["max_iterations"] set to 10, the calls (0,0), (0,1), (0,2), (1,0), (1,1)
    write 0, 1, 2, 100, 101. *)
Theorem run_exports_increasing :
  (∀ (self : Model) (r : Z) (calls : list (Z * Z)),
     computeRadix (max_iterations self) = Ok r →
     Sorted caller_step calls →
     Forall (in_range r) calls →
     StronglySorted Z.lt (labels r calls) ∧
     (∀ self', run_exports calls self = Ok self' →
               iteration_exporter self' = iteration_exporter self ++ labels r calls) ∧
     (Forall tagged (variables self) →
      ∃ self', run_exports calls self = Ok self' ∧
               iteration_exporter self' =
                 iteration_exporter self ++ labels r calls)) ∧
  ∃ self', run_exports scenario_calls scenario_model = Ok self' ∧
           iteration_exporter self' = [0; 1; 2; 100; 101].
Proof.
  split; [| eexists; split; [vm_compute; reflexivity | reflexivity]].
  intros self r calls Hr Hsteps Hrange. split; [| split].
  - apply Sorted_StronglySorted; [intros x y z; lia |].
    by apply labels_sorted.
  - intros self' Hrun. by destruct (run_exports_ok r calls self self' Hr Hrun) as (_ & _ & ?).
  - intros Htagged.
    destruct (run_exports_labels r calls self Hr Htagged) as (self' & Hrun & _ & Hexp).
    by exists self'.
Qed.

Lemma run_exports_increasing_witness :
  StronglySorted Z.lt (labels 100 scenario_calls) ∧
  (∀ self', run_exports scenario_calls scenario_model = Ok self' →
            iteration_exporter self' =
              iteration_exporter scenario_model ++ labels 100 scenario_calls) ∧
  (Forall tagged (variables scenario_model) →
   ∃ self', run_exports scenario_calls scenario_model = Ok self' ∧
            iteration_exporter self' =
              iteration_exporter scenario_model ++ labels 100 scenario_calls).
Proof.
  apply (proj1 run_exports_increasing scenario_model 100 scenario_calls).
  - reflexivity.
  - repeat constructor.
  - repeat constructor; simpl; lia.
Defined.

(** * Further properties of [save_data_iteration] *)

(** ** The radix in closed form *)

(** For [n] between [10^k] and [10^(k+1)], both candidates [p = k] and
    [p = k + 1] lead lines [r = 10**p; if r <= n: r = 10 ** (p + 1)] to
    [10^(k+1)]. *)
Lemma next_power_decade (n k p : Z) :
  0 ≤ k → 10 ^ k ≤ n < 10 ^ (k + 1) → p = k ∨ p = k + 1 →
  next_power n p = 10 ^ (k + 1).
Proof.
  intros Hk [Hlo Hhi] Hp. unfold next_power.
  pose proof (pow10_succ (k + 1) ltac:(lia)).
  pose proof (pow10_pos (k + 1) ltac:(lia)).
  destruct Hp as [-> | ->]; case_bool_decide; (done || lia).
Qed.

Lemma floor_log10_unique (n k : Z) :
  0 ≤ k → 10 ^ k ≤ n < 10 ^ (k + 1) → Numpy.floor_log10 n = k.
Proof.
  intros Hk [Hlo Hhi].
  assert (0 < n) as Hn by (pose proof (pow10_pos k Hk); lia).
  destruct (floor_log10_spec n Hn) as (Hf & Hflo & Hfhi).
  set (f := Numpy.floor_log10 n) in *.
  assert (f < k + 1) by (apply pow10_lt_inv; lia).
  assert (k < f + 1) by (apply pow10_lt_inv; lia).
  lia.
Qed.

Lemma computeRadix_decade_eq (n k : Z) :
  0 ≤ k → 10 ^ k ≤ n < 10 ^ (k + 1) → n < 2 ^ 64 →
  computeRadix n = Ok (10 ^ (k + 1)).
Proof.
  intros Hk Hn H64.
  assert (0 < n) by (pose proof (pow10_pos k Hk); lia).
  rewrite computeRadix_pos by lia. f_equal.
  apply next_power_decade; [done .. |].
  rewrite <- (floor_log10_unique n k) by done.
  apply nearest_log10_neighbour.
Qed.

(** X1: a bound below 2^64 with [k + 1] decimal digits, that is one between
    [10^k] and [10^(k+1) - 1], has the radix [10^(k+1)]. *)
Theorem computeRadix_decade (n k : Z) :
  0 ≤ k → 10 ^ k ≤ n < 10 ^ (k + 1) → n < 2 ^ 64 →
  computeRadix n = Ok (10 ^ (k + 1)).
Proof. apply computeRadix_decade_eq. Qed.

Lemma computeRadix_decade_witness :
  0 ≤ 2 ∧ 10 ^ 2 ≤ 250 < 10 ^ (2 + 1) ∧ 250 < 2 ^ 64 ∧
  computeRadix 250 = Ok (10 ^ (2 + 1)).
Proof.
  split; [lia |]. split; [lia |]. split; [lia |].
  apply (computeRadix_decade 250 2); lia.
Defined.

(** X2: the escalation step makes the rounding of the logarithm immaterial:
    started from the floor or from the ceiling of log10(n), lines
    [r = 10**p; if r <= n: r = 10 ** (p + 1)] end with the same [r]. *)
Theorem next_power_floor_ceiling (n k : Z) :
  0 ≤ k → 10 ^ k ≤ n < 10 ^ (k + 1) →
  next_power n k = next_power n (k + 1).
Proof.
  intros Hk Hn.
  rewrite (next_power_decade n k k), (next_power_decade n k (k + 1)); auto.
Qed.

Lemma next_power_floor_ceiling_witness :
  0 ≤ 1 ∧ 10 ^ 1 ≤ 31 < 10 ^ (1 + 1) ∧ next_power 31 1 = next_power 31 (1 + 1).
Proof.
  split; [lia |]. split; [lia |].
  apply (next_power_floor_ceiling 31 1); lia.
Defined.

(** Every positive bound lies in a decade. *)
Lemma decade_of (n : Z) :
  0 < n → ∃ k, 0 ≤ k ∧ 10 ^ k ≤ n < 10 ^ (k + 1).
Proof.
  intros Hn. exists (Numpy.floor_log10 n).
  destruct (floor_log10_spec n Hn) as (? & ? & ?). lia.
Qed.

(** X3: the radix of a positive bound [n] below 2^64 is above [n], at most
    [10 * n], and at least 10. *)
Theorem computeRadix_bounds (n : Z) :
  0 < n < 2 ^ 64 → ∃ r, computeRadix n = Ok r ∧ n < r ≤ 10 * n ∧ 10 ≤ r.
Proof.
  intros Hn. destruct (decade_of n ltac:(lia)) as (k & Hk & Hlo & Hhi).
  exists (10 ^ (k + 1)). split; [apply computeRadix_decade_eq; (done || lia) |].
  rewrite pow10_succ in * by done.
  pose proof (pow10_pos k Hk). lia.
Qed.

Lemma computeRadix_bounds_witness :
  0 < 99 < 2 ^ 64 ∧ ∃ r, computeRadix 99 = Ok r ∧ 99 < r ≤ 10 * 99 ∧ 10 ≤ r.
Proof. split; [lia | apply (computeRadix_bounds 99); lia]. Defined.

(** X4: among positive bounds below 2^64, a larger bound never has a smaller
    radix. *)
Theorem computeRadix_monotone (n m : Z) :
  0 < n → n ≤ m → m < 2 ^ 64 →
  ∃ rn rm, computeRadix n = Ok rn ∧ computeRadix m = Ok rm ∧ rn ≤ rm.
Proof.
  intros Hn Hnm Hm.
  destruct (decade_of n Hn) as (k & Hk & Hklo & Hkhi).
  destruct (decade_of m ltac:(lia)) as (j & Hj & Hjlo & Hjhi).
  exists (10 ^ (k + 1)), (10 ^ (j + 1)).
  split; [apply computeRadix_decade_eq; (done || lia) |].
  split; [apply computeRadix_decade_eq; (done || lia) |].
  apply pow10_le. split; [lia |].
  assert (k < j + 1) by (apply pow10_lt_inv; lia). lia.
Qed.

Lemma computeRadix_monotone_witness :
  0 < 9 ∧ 9 ≤ 10 ∧ 10 < 2 ^ 64 ∧
  ∃ rn rm, computeRadix 9 = Ok rn ∧ computeRadix 10 = Ok rm ∧ rn ≤ rm.
Proof.
  split; [lia |]. split; [lia |]. split; [lia |].
  apply (computeRadix_monotone 9 10); lia.
Defined.

(** ** Labels under the configured bound *)

Lemma computeRadix_ok_range (n r : Z) : computeRadix n = Ok r → 0 < n < 2 ^ 64.
Proof.
  intros Hr.
  destruct (computeRadix_cases n) as [[Hn _] | [[_ He] | [[_ He] | [_ He]]]];
    [done | congruence ..].
Qed.

Lemma computeRadix_above (n r : Z) : computeRadix n = Ok r → 0 < n ∧ n < r.
Proof.
  intros Hr. pose proof (computeRadix_ok_range n r Hr) as Hn.
  split; [lia |].
  destruct (decade_of n ltac:(lia)) as (k & Hk & Hlo & Hhi).
  rewrite (computeRadix_decade_eq n k) in Hr by (done || lia).
  injection Hr as <-. lia.
Qed.

(** X5: the iteration index does not interfere with the time part as long as
    it does not exceed the configured bound: for an iteration index between
    0 and ["max_iterations"], the bound included, the label divided by the
    radix is the time index and the remainder is the iteration index. *)
Theorem label_splits_within_bound (n r t i : Z) :
  computeRadix n = Ok r → 0 ≤ t → 0 ≤ i ≤ n →
  encode t i r `div` r = t ∧ encode t i r `mod` r = i.
Proof.
  intros Hr Ht Hi. destruct (computeRadix_above n r Hr) as [Hn Hnr].
  unfold encode. split; symmetry.
  - apply (Z.div_unique _ r t i); lia.
  - apply (Z.mod_unique _ r t i); lia.
Qed.

Lemma label_splits_within_bound_witness :
  computeRadix 10 = Ok 100 ∧
  encode 7 10 100 `div` 100 = 7 ∧ encode 7 10 100 `mod` 100 = 10.
Proof.
  split; [reflexivity |].
  apply (label_splits_within_bound 10 100 7 10); [reflexivity | lia | lia].
Defined.



(** X7: the guard ends at the radix.  With all variables tagged, an export
    at iteration index [r] of time step [t] writes the label that iteration
    0 of time step [t + 1] gets, so the later file replaces the earlier
    one. *)
Theorem label_collision_at_radix (self : Model) (r t : Z) :
  computeRadix (max_iterations self) = Ok r →
  Forall tagged (variables self) →
  ∃ k data,
    save_data_iteration (set_counters t r self)
      = Ok (write_vtu data k (set_counters t r self)) ∧
    save_data_iteration (set_counters (t + 1) 0 self)
      = Ok (write_vtu data k (set_counters (t + 1) 0 self)).
Proof.
  intros Hr Htagged.
  destruct (export_data_tagged self Htagged) as [data Hdata].
  exists (encode t r r), data.
  split; [by apply save_data_iteration_found |].
  rewrite (save_data_iteration_found _ r data) by done.
  simpl. do 2 f_equal. unfold encode. lia.
Qed.

Lemma label_collision_at_radix_witness :
  ∃ k data,
    save_data_iteration (set_counters 3 100 scenario_model)
      = Ok (write_vtu data k (set_counters 3 100 scenario_model)) ∧
    save_data_iteration (set_counters (3 + 1) 0 scenario_model)
      = Ok (write_vtu data k (set_counters (3 + 1) 0 scenario_model)).
Proof.
  apply (label_collision_at_radix scenario_model 100 3); [reflexivity |].
  repeat constructor; by eexists.
Defined.

(** ** Failing and completed runs *)

(** X8: a stored bound is used as it is, the default 10 stands in for a
    missing key only.  With ["max_iterations"] present the export raises
    [OverflowError] for 0, [ValueError] for a negative value down to -2^63
    and [TypeError] for a value outside the 64-bit range, whatever the
    variables; for a positive value below 2^64 it returns when all variables
    are tagged. *)
Theorem save_data_iteration_stored_bound (self : Model) (v : Z) :
  params self !! "max_iterations"%string = Some v →
  max_iterations self = v ∧
  (v = 0 → save_data_iteration self = Raise OverflowError) ∧
  (- 2 ^ 63 ≤ v < 0 → save_data_iteration self = Raise ValueError) ∧
  (v < - 2 ^ 63 ∨ 2 ^ 64 ≤ v → save_data_iteration self = Raise TypeError) ∧
  (0 < v < 2 ^ 64 → Forall tagged (variables self) →
   succeeds (save_data_iteration self)).
Proof.
  intros Hv.
  assert (max_iterations self = v) as Hn.
  { unfold max_iterations. by rewrite Hv. }
  split; [done |].
  destruct (computeRadix_cases v) as [[Hr He] | [[Hr He] | [[Hr He] | [Hr He]]]];
    rewrite <- Hn in He; repeat split; intros; try lia;
    try (by apply save_data_iteration_raise).
  destruct (export_data_tagged self) as [data Hdata]; [done |].
  eexists. by eapply save_data_iteration_found.
Qed.

Lemma save_data_iteration_stored_bound_witness :
  params model_zero_bound !! "max_iterations"%string = Some 0 ∧
  max_iterations model_zero_bound = 0 ∧
  (0 = 0 → save_data_iteration model_zero_bound = Raise OverflowError) ∧
  (- 2 ^ 63 ≤ 0 < 0 → save_data_iteration model_zero_bound = Raise ValueError) ∧
  (0 < - 2 ^ 63 ∨ 2 ^ 64 ≤ 0 →
   save_data_iteration model_zero_bound = Raise TypeError) ∧
  (0 < 0 < 2 ^ 64 → Forall tagged (variables model_zero_bound) →
   succeeds (save_data_iteration model_zero_bound)).
Proof.
  split; [reflexivity |].
  apply (save_data_iteration_stored_bound model_zero_bound 0). reflexivity.
Defined.

Lemma run_exports_raise (e : exn) (calls : list (Z * Z)) (self : Model) :
  computeRadix (max_iterations self) = Raise e → calls ≠ [] →
  run_exports calls self = Raise e.
Proof.
  intros He Hcalls. destruct calls as [| [t i] calls]; [done |].
  simpl. by rewrite (save_data_iteration_raise _ e).
Qed.

(** X9: a run raises exactly when it makes at least one export and either
    the bound is not a positive integer below 2^64 or some variable has no
    ["si_units"] tag. *)
Theorem run_exports_fails_iff (calls : list (Z * Z)) (self : Model) :
  fails (run_exports calls self) ↔
  calls ≠ [] ∧
  (max_iterations self ≤ 0 ∨ 2 ^ 64 ≤ max_iterations self ∨
   Exists (λ var, ¬ tagged var) (variables self)).
Proof.
  unfold fails. split.
  - intros [e He]. split; [by intros -> |].
    destruct (computeRadix (max_iterations self)) as [r | e'] eqn:Hr.
    + right; right.
      destruct (export_data self) as [data | key] eqn:Hdata.
      * exfalso.
        assert (∀ calls (self : Model),
                  computeRadix (max_iterations self) = Ok r →
                  export_data self = Found data →
                  ∃ self', run_exports calls self = Ok self') as Hgo.
        { clear. induction calls as [| [t i] calls IH]; intros self Hr Hdata; simpl.
          - by exists self.
          - rewrite (save_data_iteration_found (set_counters t i self) r data) by done.
            simpl. by apply IH. }
        destruct (Hgo calls self Hr Hdata) as [self' Hrun]. congruence.
      * by destruct (export_data_key_error self key Hdata).
    + pose proof (computeRadix_cases (max_iterations self)) as Hcases.
      rewrite Hr in Hcases. destruct_cases; (done || lia).
  - intros [Hcalls Hbad].
    destruct calls as [| [t i] calls]; [done |]. simpl.
    destruct (computeRadix (max_iterations self)) as [r | e] eqn:Hr.
    + pose proof (computeRadix_ok_range _ r Hr) as Hrange.
      destruct Hbad as [? | [? | Hex]]; [lia | lia |].
      exists (Key_Error "si_units").
      rewrite (save_data_iteration_radix (set_counters t i self) r) by done.
      change (export_data (set_counters t i self)) with (export_data self).
      by rewrite (export_data_untagged self Hex).
    + exists e. by rewrite (save_data_iteration_raise _ e).
Qed.

(** X10: with a positive bound below 2^64 and all variables tagged a run
    completes, leaves the parameters as they were, keeps every label written
    before and adds exactly one label for each call. *)
Theorem run_exports_history (calls : list (Z * Z)) (self : Model) :
  0 < max_iterations self < 2 ^ 64 →
  Forall tagged (variables self) →
  ∃ self', run_exports calls self = Ok self' ∧
           params self' = params self ∧
           iteration_exporter self `prefix_of` iteration_exporter self' ∧
           length (iteration_exporter self') =
             (length (iteration_exporter self) + length calls)%nat.
Proof.
  intros Hpos Htagged. destruct (decade_of _ (proj1 Hpos)) as (k & Hk & Hdec).
  assert (computeRadix (max_iterations self) = Ok (10 ^ (k + 1))) as Hr
    by (apply computeRadix_decade_eq; (done || lia)).
  destruct (run_exports_labels _ calls self Hr Htagged) as (self' & Hrun & Hpar & Hexp).
  exists self'. split; [done |]. split; [done |]. rewrite Hexp. split.
  - by eexists.
  - unfold labels. by rewrite length_app, length_map.
Qed.

Lemma run_exports_history_witness :
  ∃ self', run_exports scenario_calls model_b = Ok self' ∧
           params self' = params model_b ∧
           iteration_exporter model_b `prefix_of` iteration_exporter self' ∧
           length (iteration_exporter self') =
             (length (iteration_exporter model_b) + length scenario_calls)%nat.
Proof.
  apply (run_exports_history scenario_calls model_b).
  - change (max_iterations model_b) with 25. lia.
  - repeat constructor; by eexists.
Defined.

(** * Properties of [initialize_data_saving] *)

Lemma string_length_app (s1 s2 : string) :
  String.length (s1 +:+ s2) = (String.length s1 + String.length s2)%nat.
Proof. induction s1 as [| c s1 IH]; simpl; [done | by rewrite IH]. Qed.

Lemma string_app_ne_l (s1 s2 : string) : s2 ≠ ""%string → s1 +:+ s2 ≠ s1.
Proof.
  intros Hne Heq. apply (f_equal String.length) in Heq.
  rewrite string_length_app in Heq.
  destruct s2; [done | simpl in Heq; lia].
Qed.

Lemma string_app_inv_tail (s1 s2 s : string) : s1 +:+ s = s2 +:+ s → s1 = s2.
Proof.
  revert s2. induction s1 as [| c1 s1 IH]; intros [| c2 s2] Heq.
  - done.
  - apply (f_equal String.length) in Heq.
    rewrite !string_length_app in Heq. simpl in Heq. lia.
  - apply (f_equal String.length) in Heq.
    rewrite !string_length_app in Heq. simpl in Heq. lia.
  - cbn in Heq. injection Heq as -> Heq. f_equal. by apply IH.
Qed.

(** X16: [initialize_data_saving] raises [KeyError] exactly when
    ["file_name"] or ["folder_name"] is missing from the parameters, and
    reports ["file_name"] whenever that one is missing, ["folder_name"] only
    when it alone is. *)
Theorem initialize_data_saving_key_error (sparams : gmap string string) (self : Model) :
  (initialize_data_saving sparams self = KeyError "file_name"
   ↔ sparams !! "file_name"%string = None) ∧
  (initialize_data_saving sparams self = KeyError "folder_name"
   ↔ is_Some (sparams !! "file_name"%string) ∧
     sparams !! "folder_name"%string = None) ∧
  ((∃ ex, initialize_data_saving sparams self = Found ex)
   ↔ is_Some (sparams !! "file_name"%string) ∧
     is_Some (sparams !! "folder_name"%string)).
Proof.
  unfold initialize_data_saving, getitem.
  unfold is_Some.
  destruct (sparams !! "file_name"%string) as [f |],
           (sparams !! "folder_name"%string) as [d |]; simpl;
    repeat split; intros; destruct_cases; done || eauto.
Qed.

(** X17: the iteration exporter writes into the folder of the model, under
    the model's file name followed by ["_iterations"]; that name differs
    from the model's own file name, and the exporter starts with nothing
    written. *)
Theorem initialize_data_saving_found
    (sparams : gmap string string) (self : Model) (f d : string) :
  sparams !! "file_name"%string = Some f →
  sparams !! "folder_name"%string = Some d →
  ∃ ex self',
    initialize_data_saving sparams self = Found (ex, self') ∧
    file_name ex = f +:+ "_iterations" ∧ file_name ex ≠ f ∧
    folder_name ex = d ∧
    export_constants_separately ex = false ∧
    iteration_exporter self' = [] ∧
    max_iterations self' = max_iterations self.
Proof.
  intros Hf Hd. unfold initialize_data_saving, getitem. rewrite Hf, Hd. simpl.
  eexists _, _. split; [done |]. simpl.
  repeat split. by apply string_app_ne_l.
Qed.

Lemma initialize_data_saving_found_witness :
  ∃ ex self',
    initialize_data_saving notebook_params model_b = Found (ex, self') ∧
    file_name ex = "iterations" +:+ "_iterations" ∧
    file_name ex ≠ "iterations"%string ∧
    folder_name ex = "model_exporting"%string ∧
    export_constants_separately ex = false ∧
    iteration_exporter self' = [] ∧
    max_iterations self' = max_iterations model_b.
Proof.
  apply (initialize_data_saving_found notebook_params model_b
           "iterations" "model_exporting"); reflexivity.
Defined.

(** X18: models with different file names get iteration exporters with
    different file names. *)
Theorem initialize_data_saving_file_name_inj
    (sparams1 sparams2 : gmap string string) (self1 self2 : Model)
    (ex1 ex2 : Exporter) (self1' self2' : Model) :
  initialize_data_saving sparams1 self1 = Found (ex1, self1') →
  initialize_data_saving sparams2 self2 = Found (ex2, self2') →
  sparams1 !! "file_name"%string ≠ sparams2 !! "file_name"%string →
  file_name ex1 ≠ file_name ex2.
Proof.
  unfold initialize_data_saving, getitem.
  destruct (sparams1 !! "file_name"%string) as [f1 |]; [| done].
  destruct (sparams1 !! "folder_name"%string) as [d1 |]; [| done].
  destruct (sparams2 !! "file_name"%string) as [f2 |]; [| done].
  destruct (sparams2 !! "folder_name"%string) as [d2 |]; [| done].
  simpl. intros [= <- _] [= <- _] Hne Heq. simpl in Heq.
  apply string_app_inv_tail in Heq. congruence.
Qed.

Lemma initialize_data_saving_file_name_inj_witness :
  file_name {| file_name := "iterations_iterations";
               folder_name := "model_exporting";
               export_constants_separately := false |}
  ≠ file_name {| file_name := "jumps_iterations";
                 folder_name := "model_exporting";
                 export_constants_separately := false |}.
Proof.
  apply (initialize_data_saving_file_name_inj
           notebook_params notebook_params_jumps model_a model_a
           _ _ (set_counters 2 3 model_a) (set_counters 2 3 model_a));
    [reflexivity | reflexivity | by vm_compute].
Defined.

(** * Properties of [after_nonlinear_iteration] *)

Section AfterNonlinearIterationProperties.

Context {Vector : Type}.
Variable super_after_nonlinear_iteration : Vector → Model → Model.

(** The parent method belongs to the solution strategy of the library; it
    knows nothing of the iteration exporter. *)
Hypothesis super_keeps_exporter :
  ∀ v self, iteration_exporter (super_after_nonlinear_iteration v self)
            = iteration_exporter self.

Lemma after_nonlinear_iteration_up_to_date (v : Vector) (sim : Simulation) :
  pvd_up_to_date sim →
  pvd_up_to_date (final (after_nonlinear_iteration super_after_nonlinear_iteration v sim)).
Proof.
  intros Hsim. unfold after_nonlinear_iteration.
  destruct (save_data_iteration _) as [self' | e]; simpl.
  - by left.
  - unfold pvd_up_to_date in *. simpl. by rewrite super_keeps_exporter.
Qed.

(** X19: the pvd file is never out of step with the vtu files.  If it lists
    exactly the time steps written before a sequence of nonlinear iterations,
    it lists exactly the time steps written after it, whether the sequence
    completed or was aborted by an exception. *)
Theorem nonlinear_iterations_up_to_date (solution_vectors : list Vector) (sim : Simulation) :
  pvd_up_to_date sim →
  pvd_up_to_date
    (final (nonlinear_iterations super_after_nonlinear_iteration solution_vectors sim)).
Proof.
  revert sim. induction solution_vectors as [| v vs IH]; intros sim Hsim; simpl; [done |].
  pose proof (after_nonlinear_iteration_up_to_date v sim Hsim) as Hstep.
  destruct (after_nonlinear_iteration _ v sim) as [sim' | e sim']; simpl in *.
  - by apply IH.
  - done.
Qed.

(** X20: with a bound that is not positive the first iteration is aborted:
    the parent method has run, no vtu file is added and the pvd file is left
    as it was. *)
Theorem nonlinear_iterations_aborted
    (v : Vector) (solution_vectors : list Vector) (sim : Simulation) :
  max_iterations (super_after_nonlinear_iteration v (model sim)) ≤ 0 →
  ∃ e sim',
    nonlinear_iterations super_after_nonlinear_iteration (v :: solution_vectors) sim
      = Aborted e sim' ∧
    model sim' = super_after_nonlinear_iteration v (model sim) ∧
    iteration_exporter (model sim') = iteration_exporter (model sim) ∧
    pvd sim' = pvd sim.
Proof.
  intros Hn. simpl. unfold after_nonlinear_iteration.
  destruct (computeRadix (max_iterations (super_after_nonlinear_iteration v (model sim))))
    as [r | e] eqn:Hr.
  - apply computeRadix_above in Hr. lia.
  - rewrite (save_data_iteration_raise _ e Hr).
    eexists _, _. split; [done |]. simpl. by rewrite super_keeps_exporter.
Qed.

(** What the library's method does to the counters, the parameters and the
    list of variables: one more iteration of the current time step.  The
    values of the variables are its to change. *)
Hypothesis super_keeps_params :
  ∀ v self, params (super_after_nonlinear_iteration v self) = params self.
Hypothesis super_keeps_time_index :
  ∀ v self, time_index (super_after_nonlinear_iteration v self) = time_index self.
Hypothesis super_counts_iteration :
  ∀ v self, num_iteration (super_after_nonlinear_iteration v self)
            = num_iteration self + 1.
Hypothesis super_keeps_variables :
  ∀ v self, variables (super_after_nonlinear_iteration v self) = variables self.

Lemma super_keeps_max_iterations (v : Vector) (self : Model) :
  max_iterations (super_after_nonlinear_iteration v self) = max_iterations self.
Proof. unfold max_iterations. by rewrite super_keeps_params. Qed.

Lemma nonlinear_iterations_completed (r : Z) (solution_vectors : list Vector) :
  ∀ sim : Simulation,
    computeRadix (max_iterations (model sim)) = Ok r →
    Forall tagged (variables (model sim)) →
    ∃ sim',
      nonlinear_iterations super_after_nonlinear_iteration solution_vectors sim
        = Completed sim' ∧
      iteration_exporter (model sim') =
        iteration_exporter (model sim) ++
        ((λ j, encode (time_index (model sim)) (num_iteration (model sim) + j) r)
           <$> seqZ 1 (Z.of_nat (length solution_vectors))) ∧
      (solution_vectors ≠ [] → pvd sim' = Some (iteration_exporter (model sim'))) ∧
      params (model sim') = params (model sim) ∧
      time_index (model sim') = time_index (model sim) ∧
      num_iteration (model sim') =
        num_iteration (model sim) + Z.of_nat (length solution_vectors).
Proof.
  induction solution_vectors as [| v vs IH]; intros sim Hr Htagged.
  - exists sim. simpl. rewrite app_nil_r. repeat split; [done | lia].
  - cbn [nonlinear_iterations]. unfold after_nonlinear_iteration.
    set (self := super_after_nonlinear_iteration v (model sim)).
    assert (computeRadix (max_iterations self) = Ok r) as Hself.
    { unfold self. by rewrite super_keeps_max_iterations. }
    assert (Forall tagged (variables self)) as Hvars.
    { unfold self. by rewrite super_keeps_variables. }
    destruct (export_data_tagged self Hvars) as [data Hdata].
    rewrite (save_data_iteration_found self r data Hself Hdata).
    set (sim1 := {| model := write_vtu data _ self; pvd := _ |}).
    destruct (IH sim1 Hself Hvars) as (sim' & Hrun & Hexp & Hpvd & Hpar & Htime & Hnum).
    exists sim'. split; [done |].
    assert (time_index (model sim1) = time_index (model sim)) as Ht1
      by apply super_keeps_time_index.
    assert (num_iteration (model sim1) = num_iteration (model sim) + 1) as Hn1
      by apply super_counts_iteration.
    assert (iteration_exporter (model sim1) =
              iteration_exporter (model sim) ++
              [encode (time_index (model sim)) (num_iteration (model sim) + 1) r])
      as He1.
    { unfold sim1. simpl. unfold self at 1. rewrite super_keeps_exporter.
      do 2 f_equal. fold self. change (time_index self) with (time_index (model sim1)).
      change (num_iteration self) with (num_iteration (model sim1)).
      by rewrite Ht1, Hn1. }
    rewrite Ht1, Hn1, He1 in *.
    split; [| split; [| split; [| split]]].
    + rewrite Hexp, <- app_assoc. f_equal.
      rewrite (seqZ_cons 1 (Z.of_nat (length (v :: vs)))) by (simpl; lia).
      rewrite fmap_cons. simpl app. f_equal.
      replace (Z.pred (Z.of_nat (length (v :: vs)))) with (Z.of_nat (length vs))
        by (simpl; lia).
      change (Z.succ 1) with (1 + 1).
      rewrite <- (fmap_add_seqZ 1 1), <- list_fmap_compose.
      apply list_fmap_ext. intros _ j _. simpl. f_equal. lia.
    + intros _. destruct vs as [| v' vs'].
      * simpl in Hrun. injection Hrun as <-. done.
      * by apply Hpvd.
    + rewrite Hpar. apply super_keeps_params.
    + done.
    + rewrite Hnum. simpl length. lia.
Qed.

(** X21: when the parent method counts the iteration and leaves the time
    index, the parameters and the list of variables alone, and all variables
    are tagged, [k] nonlinear iterations of time step [t] that start at
    iteration index [i] complete and add the labels [encode t (i + 1) r],
    ..., [encode t (i + k) r] in this order; afterwards the pvd file lists
    every time step written. *)
Theorem nonlinear_iterations_labels
    (r : Z) (solution_vectors : list Vector) (sim : Simulation) :
  computeRadix (max_iterations (model sim)) = Ok r →
  Forall tagged (variables (model sim)) →
  solution_vectors ≠ [] →
  ∃ sim',
    nonlinear_iterations super_after_nonlinear_iteration solution_vectors sim
      = Completed sim' ∧
    iteration_exporter (model sim') =
      iteration_exporter (model sim) ++
      ((λ j, encode (time_index (model sim)) (num_iteration (model sim) + j) r)
         <$> seqZ 1 (Z.of_nat (length solution_vectors))) ∧
    pvd sim' = Some (iteration_exporter (model sim')) ∧
    num_iteration (model sim') =
      num_iteration (model sim) + Z.of_nat (length solution_vectors).
Proof.
  intros Hr Htagged Hne.
  destruct (nonlinear_iterations_completed r solution_vectors sim Hr Htagged)
    as (sim' & Hrun & Hexp & Hpvd & _ & _ & Hnum).
  exists sim'. auto.
Qed.

End AfterNonlinearIterationProperties.

Lemma nonlinear_iterations_up_to_date_witness :
  pvd_up_to_date
    (final (nonlinear_iterations count_iteration [(); (); ()] scenario_simulation)).
Proof.
  apply (nonlinear_iterations_up_to_date count_iteration
           (λ _ _, eq_refl) [(); (); ()] scenario_simulation).
  right. split; reflexivity.
Defined.

Lemma nonlinear_iterations_aborted_witness :
  ∃ e sim',
    nonlinear_iterations count_iteration [(); ()] zero_bound_simulation
      = Aborted e sim' ∧
    model sim' = count_iteration () (model zero_bound_simulation) ∧
    iteration_exporter (model sim') = iteration_exporter (model zero_bound_simulation) ∧
    pvd sim' = pvd zero_bound_simulation.
Proof.
  apply (nonlinear_iterations_aborted count_iteration
           (λ _ _, eq_refl) () [()] zero_bound_simulation).
  vm_compute. discriminate.
Defined.

Lemma nonlinear_iterations_labels_witness :
  ∃ sim',
    nonlinear_iterations count_iteration [(); (); ()] scenario_simulation
      = Completed sim' ∧
    iteration_exporter (model sim') =
      iteration_exporter (model scenario_simulation) ++
      ((λ j, encode (time_index (model scenario_simulation))
                    (num_iteration (model scenario_simulation) + j) 100)
         <$> seqZ 1 (Z.of_nat (length [(); (); ()]))) ∧
    pvd sim' = Some (iteration_exporter (model sim')) ∧
    num_iteration (model sim') =
      num_iteration (model scenario_simulation) + Z.of_nat (length [(); (); ()]).
Proof.
  apply (nonlinear_iterations_labels count_iteration
           (λ _ _, eq_refl) (λ _ _, eq_refl) (λ _ _, eq_refl) (λ _ _, eq_refl)
           (λ _ _, eq_refl)
           100 [(); (); ()] scenario_simulation);
    [reflexivity | repeat constructor; by eexists | discriminate].
Defined.

Example nonlinear_iterations_scenario :
  ∃ sim',
    nonlinear_iterations count_iteration [(); (); ()] scenario_simulation
      = Completed sim' ∧
    iteration_exporter (model sim') = [1; 2; 3] ∧ pvd sim' = Some [1; 2; 3].
Proof. eexists. split; [vm_compute; reflexivity | split; reflexivity]. Qed.

(** An untagged variable aborts the first iteration with the [KeyError] of
    the data collection, before any file is written. *)
Example nonlinear_iterations_untagged :
  ∃ sim',
    nonlinear_iterations count_iteration [(); ()] untagged_simulation
      = Aborted (Key_Error "si_units") sim' ∧
    iteration_exporter (model sim') = [] ∧ pvd sim' = None.
Proof. eexists. split; [vm_compute; reflexivity | split; reflexivity]. Qed.
